(** * Gemini Adventure Weaver: the game orchestrator (the [App] component) and
    its data model ([types.ts]).

    The [App] component owns eight pieces of React state and three event
    handlers.  Two of the handlers are [async]: they suspend on the story
    service ([getInitialScene], [getNextScene]) and on the image service
    ([generateImage]), both of which live outside the component and may
    resolve or reject.  The embedding keeps that shape:

    - the eight [useState] cells are the record [Session];
    - every [setX(...)] statement and every [await] is an [Effect]; a handler
      is a computation in a small monad [M] that threads the session, writes
      the effects it performs in program order, and propagates a rejected
      promise like a JavaScript exception;
    - the three services are a record of functions handed to the handler, so
      every theorem holds whatever the provider answers;
    - the JSX returned by [App] is the function [render] into a [View] that
      records which child component is mounted with which props, hence which
      handler a user can reach;
    - [dispatch] is one user action whose handler runs to its end with
      nothing else happening; the live page, where further actions are taken
      while handlers are suspended and calls settle in any order, is [Page]
      with [act] and [settle]. *)

From Stdlib Require Import String List Bool Arith Lia.
Import ListNotations.
Open Scope string_scope.

Set Implicit Arguments.

(** ** Data model ([types.ts]) *)

Record GameStateFromAI : Type := mkGameState {
  sceneDescription : string;
  imagePrompt : string;
  choices : list string;
  gameOver : bool;
  gameOverMessage : option string
}.

(** The [useState] cells of [App], in declaration order. *)
Record Session : Type := mkSession {
  gameState : option GameStateFromAI;
  currentImageUrl : option string;
  storyLog : list string;
  isLoading : bool;
  isImageLoading : bool;
  error : option string;
  gameStarted : bool;
  apiKeyMissing : bool
}.

(** The initial values passed to [useState]. *)
Definition initialSession : Session :=
  {| gameState := None; currentImageUrl := None; storyLog := [];
     isLoading := false; isImageLoading := false; error := None;
     gameStarted := false; apiKeyMissing := false |}.

(** ** JavaScript values the handlers branch on *)

(** A thrown value: [err instanceof Error] with its [message], or anything
    else. *)
Inductive Thrown : Type :=
| ErrorObject (message : string)
| OtherValue.

(** A settled promise. *)
Inductive Outcome (A : Type) : Type :=
| Resolved (a : A)
| Rejected (e : Thrown).
Arguments Resolved {A} a.
Arguments Rejected {A} e.

(** Truthiness of a string: only the empty string is falsy. *)
Definition truthy (s : string) : bool :=
  match s with
  | EmptyString => false
  | String _ _ => true
  end.

(** Truthiness of [string | null | undefined]. *)
Definition truthyOpt (o : option string) : bool :=
  match o with
  | None => false
  | Some s => truthy s
  end.

(** [a || b] on strings. *)
Definition orElse (a : option string) (b : string) : string :=
  match a with
  | Some s => if truthy s then s else b
  | None => b
  end.

(** [err instanceof Error ? err.message : fallback]. *)
Definition messageOf (err : Thrown) (fallback : string) : string :=
  match err with
  | ErrorObject m => m
  | OtherValue => fallback
  end.

(** ** The services ([./services/geminiService])

    Their bodies are outside the component; the handlers only depend on
    whether a call resolves (with data, or with a falsy result) or rejects.
    The image result is whatever [setCurrentImageUrl] accepts. *)
Record Services : Type := mkServices {
  getInitialScene : string -> Outcome (option GameStateFromAI);
  getNextScene : string -> string -> list string -> Outcome (option GameStateFromAI);
  generateImage : string -> Outcome (option string)
}.

Inductive StoryRequest : Type :=
| GetInitialScene (theme : string)
| GetNextScene (currentScene chosenAction : string) (priorScenes : list string).

Definition answer (svc : Services) (req : StoryRequest) : Outcome (option GameStateFromAI) :=
  match req with
  | GetInitialScene theme => getInitialScene svc theme
  | GetNextScene scene choice log => getNextScene svc scene choice log
  end.

(** ** Effects: state setters, awaited calls with their result, console *)

Inductive Effect : Type :=
| SetGameState (v : option GameStateFromAI)
| SetCurrentImageUrl (v : option string)
| SetStoryLog (v : list string)
| AppendStoryLog (entry : string)
| SetIsLoading (v : bool)
| SetIsImageLoading (v : bool)
| SetError (v : option string)
| SetGameStarted (v : bool)
| SetApiKeyMissing (v : bool)
| StoryCall (req : StoryRequest) (res : Outcome (option GameStateFromAI))
| ImageCall (prompt : string) (res : Outcome (option string))
| ConsoleError (err : Thrown).

(** What an effect does to the state cells.  [AppendStoryLog] is the
    functional update [prevLog => [...prevLog, entry]]: it reads the cell as
    it is when the update is applied. *)
Definition applyEffect (e : Effect) (s : Session) : Session :=
  match e with
  | SetGameState v =>
      mkSession v (currentImageUrl s) (storyLog s) (isLoading s)
        (isImageLoading s) (error s) (gameStarted s) (apiKeyMissing s)
  | SetCurrentImageUrl v =>
      mkSession (gameState s) v (storyLog s) (isLoading s)
        (isImageLoading s) (error s) (gameStarted s) (apiKeyMissing s)
  | SetStoryLog v =>
      mkSession (gameState s) (currentImageUrl s) v (isLoading s)
        (isImageLoading s) (error s) (gameStarted s) (apiKeyMissing s)
  | AppendStoryLog entry =>
      mkSession (gameState s) (currentImageUrl s) (storyLog s ++ [entry])
        (isLoading s) (isImageLoading s) (error s) (gameStarted s)
        (apiKeyMissing s)
  | SetIsLoading v =>
      mkSession (gameState s) (currentImageUrl s) (storyLog s) v
        (isImageLoading s) (error s) (gameStarted s) (apiKeyMissing s)
  | SetIsImageLoading v =>
      mkSession (gameState s) (currentImageUrl s) (storyLog s) (isLoading s)
        v (error s) (gameStarted s) (apiKeyMissing s)
  | SetError v =>
      mkSession (gameState s) (currentImageUrl s) (storyLog s) (isLoading s)
        (isImageLoading s) v (gameStarted s) (apiKeyMissing s)
  | SetGameStarted v =>
      mkSession (gameState s) (currentImageUrl s) (storyLog s) (isLoading s)
        (isImageLoading s) (error s) v (apiKeyMissing s)
  | SetApiKeyMissing v =>
      mkSession (gameState s) (currentImageUrl s) (storyLog s) (isLoading s)
        (isImageLoading s) (error s) (gameStarted s) v
  | StoryCall _ _ => s
  | ImageCall _ _ => s
  | ConsoleError _ => s
  end.

(** The state cells after a sequence of effects. *)
Definition replay (s : Session) (tr : list Effect) : Session :=
  fold_left (fun acc e => applyEffect e acc) tr s.

(** ** The handler monad *)

Record Run (A : Type) : Type := mkRun {
  session : Session;
  trace : list Effect;
  outcome : Outcome A
}.

Definition M (A : Type) : Type := Services -> Session -> Run A.

Definition ret {A} (a : A) : M A :=
  fun _ s => mkRun s [] (Resolved a).

Definition bind {A B} (m : M A) (k : A -> M B) : M B :=
  fun svc s =>
    let '(mkRun s1 t1 o1) := m svc s in
    match o1 with
    | Resolved a =>
        let '(mkRun s2 t2 o2) := k a svc s1 in
        mkRun s2 (t1 ++ t2) o2
    | Rejected e => mkRun s1 t1 (Rejected e)
    end.

Notation "x <- m ;; k" := (bind m (fun x => k))
  (at level 61, m at next level, right associativity).
Notation "m ;; k" := (bind m (fun _ => k))
  (at level 61, right associativity).

Definition emit (e : Effect) : M unit :=
  fun _ s => mkRun (applyEffect e s) [e] (Resolved tt).

(** [await call]: the call is made, and a rejection is thrown at the
    [await]. *)
Definition awaitStory (req : StoryRequest) : M (option GameStateFromAI) :=
  fun svc s => mkRun s [StoryCall req (answer svc req)] (answer svc req).

Definition awaitImage (prompt : string) : M (option string) :=
  fun svc s =>
    mkRun s [ImageCall prompt (generateImage svc prompt)] (generateImage svc prompt).

(** [try { body } catch (err) { handler } finally { final }]. *)
Definition tryCatchFinally (body : M unit) (handler : Thrown -> M unit)
    (final : M unit) : M unit :=
  fun svc s =>
    let '(mkRun s1 t1 o1) := body svc s in
    let '(mkRun s2 t2 o2) :=
      match o1 with
      | Resolved _ => mkRun s1 t1 o1
      | Rejected e =>
          let '(mkRun sh th oh) := handler e svc s1 in
          mkRun sh (t1 ++ th) oh
      end in
    let '(mkRun s3 t3 o3) := final svc s2 in
    mkRun s3 (t2 ++ t3)
      (match o3 with
       | Resolved _ => o2
       | Rejected e => Rejected e
       end).

Definition when (b : bool) (m : M unit) : M unit :=
  if b then m else ret tt.

(** ** The mount effect and the three handlers of [App] *)

(** [useEffect(() => { if (!process.env.API_KEY) ... }, [])]. *)
Definition checkApiKey (apiKey : option string) : M unit :=
  when (negb (truthyOpt apiKey))
    (emit (SetApiKeyMissing true) ;;
     emit (SetError (Some "API Key is missing. Please ensure the API_KEY environment variable is set."))).

(** [handleStartGame]; [closure] is the render whose values the callback
    captured (its dependency list is [apiKeyMissing]). *)
Definition handleStartGame (closure : Session) (theme : string) : M unit :=
  if apiKeyMissing closure then ret tt else
  emit (SetIsLoading true) ;;
  emit (SetError None) ;;
  emit (SetStoryLog []) ;;
  emit (SetCurrentImageUrl None) ;;
  tryCatchFinally
    (initialData <- awaitStory (GetInitialScene theme) ;;
     match initialData with
     | Some initialData =>
         emit (SetGameState (Some initialData)) ;;
         emit (SetStoryLog [sceneDescription initialData]) ;;
         emit (SetGameStarted true) ;;
         when (truthy (imagePrompt initialData))
           (emit (SetIsImageLoading true) ;;
            imageUrl <- awaitImage (imagePrompt initialData) ;;
            emit (SetCurrentImageUrl imageUrl) ;;
            emit (SetIsImageLoading false))
     | None =>
         emit (SetError (Some "Failed to initialize game: No data received from AI."))
     end)
    (fun err =>
       emit (ConsoleError err) ;;
       emit (SetError (Some (messageOf err "An unknown error occurred while starting the game."))))
    (emit (SetIsLoading false)).

(** [handleChoiceSelected]; the callback captured [gameState], [storyLog]
    and [apiKeyMissing]. *)
Definition handleChoiceSelected (closure : Session) (choice : string) : M unit :=
  match gameState closure with
  | None => ret tt
  | Some current =>
      if apiKeyMissing closure then ret tt else
      emit (SetIsLoading true) ;;
      emit (SetError None) ;;
      emit (SetCurrentImageUrl None) ;;
      tryCatchFinally
        (nextData <- awaitStory
           (GetNextScene (sceneDescription current) choice (storyLog closure)) ;;
         match nextData with
         | Some nextData =>
             emit (SetGameState (Some nextData)) ;;
             if negb (gameOver nextData) then
               emit (AppendStoryLog (sceneDescription nextData)) ;;
               when (truthy (imagePrompt nextData))
                 (emit (SetIsImageLoading true) ;;
                  imageUrl <- awaitImage (imagePrompt nextData) ;;
                  emit (SetCurrentImageUrl imageUrl) ;;
                  emit (SetIsImageLoading false))
             else
               when (truthy (imagePrompt nextData))
                 (emit (SetIsImageLoading true) ;;
                  imageUrl <- awaitImage (imagePrompt nextData) ;;
                  emit (SetCurrentImageUrl imageUrl) ;;
                  emit (SetIsImageLoading false))
         | None =>
             emit (SetError (Some "Failed to get next scene: No data received from AI."))
         end)
        (fun err =>
           emit (ConsoleError err) ;;
           emit (SetError (Some (messageOf err "An unknown error occurred while processing your choice."))))
        (emit (SetIsLoading false))
  end.

Definition handleRestartGame : M unit :=
  emit (SetGameStarted false) ;;
  emit (SetGameState None) ;;
  emit (SetCurrentImageUrl None) ;;
  emit (SetStoryLog []) ;;
  emit (SetError None) ;;
  emit (SetIsLoading false) ;;
  emit (SetIsImageLoading false).

(** ** What [App] returns *)

Record ImageDisplayProps : Type := mkImageDisplay {
  imageUrl : option string;
  altText : string;
  imageSpinner : bool
}.

Record ChoicesListProps : Type := mkChoicesList {
  choiceButtons : list string;
  disabled : bool
}.

(** The fragment under [gameState && (...)]. *)
Record SceneBlock : Type := mkSceneBlock {
  imageDisplay : ImageDisplayProps;
  sceneText : string;
  sceneSpinner : bool;
  choicesList : option ChoicesListProps
}.

Inductive View : Type :=
| CriticalErrorScreen (message : string)
| GameStartScreen (loading : bool)
| GameOverScreen (message : option string)
| AdventureScreen (banner : string) (spinner : bool) (scene : option SceneBlock).

Definition criticalMessage : string :=
  "CRITICAL ERROR: API Key is not configured. The application cannot function. Please set the API_KEY environment variable.".

(** [gameState?.gameOver] and [gameState?.sceneDescription] as conditions. *)
Definition isGameOver (s : Session) : bool :=
  match gameState s with
  | Some g => gameOver g
  | None => false
  end.

Definition hasSceneText (s : Session) : bool :=
  match gameState s with
  | Some g => truthy (sceneDescription g)
  | None => false
  end.

Definition render (s : Session) : View :=
  if apiKeyMissing s && negb (gameStarted s) then
    CriticalErrorScreen criticalMessage
  else if negb (gameStarted s) then
    GameStartScreen (isLoading s)
  else if isGameOver s then
    GameOverScreen (match gameState s with
                    | Some g => gameOverMessage g
                    | None => None
                    end)
  else
    AdventureScreen
      (orElse (error s)
         (if apiKeyMissing s
          then "API Key is missing, game functionality is limited."
          else ""))
      (isLoading s && negb (hasSceneText s))
      (match gameState s with
       | Some g =>
           Some (mkSceneBlock
                   (mkImageDisplay (currentImageUrl s)
                      (if truthy (imagePrompt g) then imagePrompt g else "Scene image")
                      (isImageLoading s))
                   (sceneDescription g)
                   (isLoading s && truthy (sceneDescription g))
                   (if negb (isLoading s)
                    then Some (mkChoicesList (choices g) (isLoading s))
                    else None))
       | None => None
       end).

(** ** User actions and how they reach the handlers *)

Inductive Action : Type :=
| StartGame (theme : string)
| ChooseOption (choice : string)
| RestartGame.

(** The handler each action is wired to, closed over the current render. *)
Definition handler (closure : Session) (a : Action) : M unit :=
  match a with
  | StartGame theme => handleStartGame closure theme
  | ChooseOption choice => handleChoiceSelected closure choice
  | RestartGame => handleRestartGame
  end.

(** Calling a handler directly on the current render. *)
Definition invoke (svc : Services) (s : Session) (a : Action) : Run unit :=
  handler s a svc s.

(** The controls a view carries: [onStartGame] is a prop of the start screen,
    [onChoiceSelected] of the choices list, [onRestart] of the game-over
    screen. *)
Definition offered (v : View) (a : Action) : bool :=
  match v, a with
  | GameStartScreen _, StartGame _ => true
  | GameOverScreen _, RestartGame => true
  | AdventureScreen _ _ (Some block), ChooseOption _ =>
      match choicesList block with
      | Some _ => true
      | None => false
      end
  | _, _ => false
  end.

(** A user action on the rendered page: it runs its handler when the current
    view carries the control, and is not possible otherwise. *)
Definition dispatch (svc : Services) (s : Session) (a : Action) : Run unit :=
  if offered (render s) a then invoke svc s a else mkRun s [] (Resolved tt).

(** The component after mounting: initial cells, then the mount effect. *)
Definition mount (apiKey : option string) : Session :=
  session (checkApiKey apiKey (mkServices (fun _ => Resolved None)
                                 (fun _ _ _ => Resolved None)
                                 (fun _ => Resolved None))
             initialSession).

(** A sequence of user actions, each with the provider's behaviour during
    that action. *)
Fixpoint play (s : Session) (steps : list (Services * Action)) : Run unit :=
  match steps with
  | [] => mkRun s [] (Resolved tt)
  | (svc, a) :: rest =>
      let '(mkRun s1 t1 _) := dispatch svc s a in
      let '(mkRun s2 t2 o2) := play s1 rest in
      mkRun s2 (t1 ++ t2) o2
  end.

(** The same with the handlers called directly, whatever the view shows. *)
Fixpoint playDirect (s : Session) (steps : list (Services * Action)) : Run unit :=
  match steps with
  | [] => mkRun s [] (Resolved tt)
  | (svc, a) :: rest =>
      let '(mkRun s1 t1 _) := invoke svc s a in
      let '(mkRun s2 t2 o2) := playDirect s1 rest in
      mkRun s2 (t1 ++ t2) o2
  end.

(** ** Observations on a trace *)

(** The story requests made, in order. *)
Definition storyCalls (tr : list Effect) : list StoryRequest :=
  flat_map (fun e => match e with StoryCall req _ => [req] | _ => [] end) tr.

(** The image prompts requested, in order. *)
Definition imageCalls (tr : list Effect) : list string :=
  flat_map (fun e => match e with ImageCall p _ => [p] | _ => [] end) tr.

(** The scenes put on display ([setGameState] with data), in order. *)
Definition scenesShown (tr : list Effect) : list GameStateFromAI :=
  flat_map (fun e => match e with SetGameState (Some d) => [d] | _ => [] end) tr.

Definition isCall (e : Effect) : bool :=
  match e with
  | StoryCall _ _ | ImageCall _ _ => true
  | _ => false
  end.

(** The state cells as they are each time the handler is suspended on a
    call: what the page shows while the request is pending. *)
Fixpoint suspensions (s : Session) (tr : list Effect) : list Session :=
  match tr with
  | [] => []
  | e :: rest =>
      (if isCall e then [s] else []) ++ suspensions (applyEffect e s) rest
  end.

Definition nonGameOver (d : GameStateFromAI) : bool := negb (gameOver d).



(** A story response that carries no scene: a rejection or a falsy result. *)
Definition storyFailed (res : Outcome (option GameStateFromAI)) : bool :=
  match res with
  | Resolved (Some _) => false
  | Resolved None => true
  | Rejected _ => true
  end.


(** The condition the mount effect leaves when the key is absent. *)
Definition keyless (s : Session) : Prop :=
  apiKeyMissing s = true /\ gameStarted s = false.

(** ** Concrete scenes and providers used in the examples *)

Definition libraryScene : GameStateFromAI :=
  mkGameState "You stand before a library..." "a haunted library exterior"
    ["Enter"; "Walk away"] false None.

Definition hallScene : GameStateFromAI :=
  mkGameState "A candle-lit hall of shelves." "a candle-lit reading hall"
    ["Read"; "Leave"] false None.

Definition vanishScene : GameStateFromAI :=
  mkGameState "The shelves close around you." "an endless dark stack"
    [] true (Some "You vanish into the stacks forever.").

(** A provider that answers every call of a kind the same way. *)
Definition scripted (opening next : Outcome (option GameStateFromAI))
    (image : Outcome (option string)) : Services :=
  mkServices (fun _ => opening) (fun _ _ _ => next) (fun _ => image).

Definition libraryProvider : Services :=
  scripted (Resolved (Some libraryScene)) (Resolved (Some hallScene))
    (Resolved (Some "library.png")).

Definition vanishProvider : Services :=
  scripted (Resolved (Some vanishScene)) (Resolved (Some vanishScene))
    (Resolved (Some "stacks.png")).

Definition imageDown : Services :=
  scripted (Resolved (Some libraryScene)) (Resolved (Some hallScene))
    (Rejected (ErrorObject "image quota exceeded")).

Definition storyDown : Services :=
  scripted (Rejected (ErrorObject "quota exceeded"))
    (Rejected (ErrorObject "quota exceeded")) (Resolved (Some "unused.png")).

(** The page after a successful start on the theme "haunted library". *)
Definition libraryShown : Session :=
  session (dispatch libraryProvider (mount (Some "key")) (StartGame "haunted library")).


(** ** Further observations: pending calls, prompts, messages *)

(** The calls a handler is suspended on, each with the state cells as they
    are while the call is pending. *)
Fixpoint pendingCalls (s : Session) (tr : list Effect) : list (Session * Effect) :=
  match tr with
  | [] => []
  | e :: rest =>
      (if isCall e then [(s, e)] else []) ++ pendingCalls (applyEffect e s) rest
  end.

(** The image prompts of the scenes that have one. *)
Definition promptsOf (shown : list GameStateFromAI) : list string :=
  flat_map (fun d => if truthy (imagePrompt d) then [imagePrompt d] else []) shown.

(** The text each async handler falls back on for a thrown value that is
    not an [Error]. *)
Definition fallbackText (a : Action) : string :=
  match a with
  | StartGame _ => "An unknown error occurred while starting the game."
  | ChooseOption _ => "An unknown error occurred while processing your choice."
  | RestartGame => ""
  end.

(** The text each async handler sets when the story call resolves without
    data. *)
Definition noDataText (a : Action) : string :=
  match a with
  | StartGame _ => "Failed to initialize game: No data received from AI."
  | ChooseOption _ => "Failed to get next scene: No data received from AI."
  | RestartGame => ""
  end.

(** The error cell a request ends with, from what the two calls answered. *)
Definition errorAfter (svc : Services) (a : Action)
    (res : Outcome (option GameStateFromAI)) : option string :=
  match res with
  | Rejected e => Some (messageOf e (fallbackText a))
  | Resolved None => Some (noDataText a)
  | Resolved (Some d) =>
      if truthy (imagePrompt d) then
        match generateImage svc (imagePrompt d) with
        | Rejected e => Some (messageOf e (fallbackText a))
        | Resolved _ => None
        end
      else None
  end.

(** A restart clicked while the handler of [a] is suspended before its
    [k]-th effect (a call): the handler's first [k] effects, then the restart
    handler, which is synchronous, then the rest of the suspended handler's
    effects once its call settles.  The rest does not depend on the cells:
    the handlers read only their closure and the services' answers, and the
    one functional update is applied to the cells as they then are. *)
Definition restartDuring (svc : Services) (s : Session) (a : Action) (k : nat) : Session :=
  replay (session (dispatch svc (replay s (firstn k (trace (dispatch svc s a))))
                     RestartGame))
    (skipn k (trace (dispatch svc s a))).

(** ** The page with handlers in flight

    A handler that awaits a call is suspended while the page stays live:
    whatever control the current view carries can be used meanwhile, and
    several handlers can be suspended at once.  Nothing cancels a suspended
    handler: when its call settles it performs its next effects on the cells
    as they then are.

    The effects a handler performs depend on its closure and on the services'
    answers, not on the cells it runs against
    ([handler_effects_from_closure] below), so a suspended handler is kept as
    the effects it has still to perform, the awaited call first. *)

(** A trace cut at its first call: the effects performed at once, and the
    rest from the awaited call on. *)
Fixpoint untilCall (tr : list Effect) : list Effect * list Effect :=
  match tr with
  | [] => ([], [])
  | e :: rest =>
      if isCall e then ([], e :: rest)
      else let '(now, later) := untilCall rest in (e :: now, later)
  end.

Record Page : Type := mkPage {
  cells : Session;
  inFlight : list (list Effect)
}.

(** A handler that has effects left is kept in flight; a finished one is
    not. *)
Definition park (later : list Effect) (others : list (list Effect)) : list (list Effect) :=
  match later with
  | [] => others
  | _ :: _ => later :: others
  end.

(** A user action on the live page: if the current view carries the control,
    its handler, closed over the current cells, runs up to its first await
    and is then in flight. *)
Definition act (svc : Services) (a : Action) (p : Page) : Page :=
  if offered (render (cells p)) a then
    let '(now, later) := untilCall (trace (invoke svc (cells p) a)) in
    mkPage (replay (cells p) now) (park later (inFlight p))
  else p.

(** The call awaited by the [i]-th handler in flight settles: the handler
    performs its effects up to its next await, or to its end. *)
Definition settle (i : nat) (p : Page) : Page :=
  match nth_error (inFlight p) i with
  | Some (_ :: rest) =>
      let '(now, later) := untilCall rest in
      mkPage (replay (cells p) now)
        (firstn i (inFlight p) ++ park later (skipn (S i) (inFlight p)))
  | _ => p
  end.

(** Every page the component can be in: mounted, then user actions and
    settling calls in any order. *)
Inductive reachable : Page -> Prop :=
| reachable_mount (apiKey : option string) :
    reachable (mkPage (mount apiKey) [])
| reachable_act (svc : Services) (a : Action) (p : Page) :
    reachable p -> reachable (act svc a p)
| reachable_settle (i : nat) (p : Page) :
    reachable p -> reachable (settle i p).

(** Effects that touch only the loading flag, the error, the log and the
    image: what an async handler does before its first await. *)
Definition calm (e : Effect) : bool :=
  match e with
  | SetIsLoading _ | SetError _ | SetStoryLog _ | SetCurrentImageUrl _ => true
  | _ => false
  end.

(** What a handler does after an await never clears the game state, never
    writes the credential flag, and sets gameStarted only to true and only
    after it has set a game state since the last await ([seen]). *)
Fixpoint segmentsOk (seen : bool) (tr : list Effect) : bool :=
  match tr with
  | [] => true
  | e :: rest =>
      match e with
      | SetGameState (Some _) => segmentsOk true rest
      | SetGameState None => false
      | SetGameStarted true => seen && segmentsOk seen rest
      | SetGameStarted false => false
      | SetApiKeyMissing _ => false
      | StoryCall _ _ | ImageCall _ _ => segmentsOk false rest
      | _ => segmentsOk seen rest
      end
  end.

Definition lowersLoading (e : Effect) : bool :=
  match e with
  | SetIsLoading false => true
  | _ => false
  end.

(** The last effect is setIsLoading(false). *)
Fixpoint endsLoadingDown (tr : list Effect) : bool :=
  match tr with
  | [] => false
  | e :: rest =>
      match rest with
      | [] => lowersLoading e
      | _ :: _ => endsLoadingDown rest
      end
  end.

(** A handler in flight: an awaited call, then effects as above. *)
Definition flightOk (fl : list Effect) : bool :=
  match fl with
  | [] => false
  | call :: rest => isCall call && segmentsOk false rest && endsLoadingDown rest
  end.

(** The trace of an async handler: nothing, or calm effects and then a
    flight. *)
Definition asyncOk (tr : list Effect) : bool :=
  match tr with
  | [] => true
  | _ :: _ => let '(now, later) := untilCall tr in forallb calm now && flightOk later
  end.

(** What holds of the page under every interleaving (X11). *)
Definition pageOk (p : Page) : Prop :=
  (gameStarted (cells p) = true -> gameState (cells p) <> None) /\
  (apiKeyMissing (cells p) = true ->
   gameStarted (cells p) = false /\ inFlight p = []) /\
  Forall (fun fl => flightOk fl = true) (inFlight p) /\
  (inFlight p = [] -> isLoading (cells p) = false).

(** The page after a restart clicked while the game-over scene's image is
    being fetched, the late image having arrived. *)
Definition lateImagePage : Page :=
  settle 0 (act libraryProvider RestartGame
              (settle 0 (act vanishProvider (ChooseOption "Enter")
                           (mkPage libraryShown [])))).

(** ** Proof automation: evaluate a handler, split on what the provider and
    the state cells decide. *)

Ltac simp_run :=
  cbv beta iota zeta delta
    [dispatch invoke handler handleStartGame handleChoiceSelected
     handleRestartGame when tryCatchFinally bind emit awaitStory
     awaitImage ret answer session trace outcome applyEffect app gameState
     currentImageUrl storyLog isLoading isImageLoading error gameStarted
     apiKeyMissing negb andb orb render offered isGameOver hasSceneText
     choicesList replay fold_left storyCalls imageCalls scenesShown flat_map
     suspensions isCall nonGameOver filter map].

Ltac atomic x :=
  first
    [ is_var x
    | match x with
      | getInitialScene _ _ => idtac
      | getNextScene _ _ _ _ => idtac
      | generateImage _ _ => idtac
      | truthy _ => idtac
      | gameOver _ => idtac
      end ].

Ltac split_cases :=
  repeat (simp_run;
          match goal with
          | |- context [match ?x with _ => _ end] =>
              atomic x; destruct x eqn:?
          end);
  simp_run.

(** Membership in a computed trace: go through the elements. *)
Ltac in_trace H :=
  repeat (destruct H as [H | H];
          [ try discriminate H; try (injection H as; subst) | ]);
  try contradiction.

(** The part of a computed trace before its last [n] effects. *)
Ltac give_prefix n :=
  match goal with
  | |- exists pre, _ /\ ?tr = _ /\ _ =>
      let k := eval cbv beta iota delta [firstn length Nat.sub] in
                 (firstn (length tr - n) tr) in
      exists k
  end.

(** Membership of an explicit element in an explicit list. *)
Ltac find_in := vm_compute; repeat (try (left; reflexivity); right).

Ltac simp_ext :=
  cbv beta iota zeta delta
    [dispatch invoke handler handleStartGame handleChoiceSelected
     handleRestartGame when tryCatchFinally bind emit awaitStory
     awaitImage ret answer session trace outcome applyEffect app gameState
     currentImageUrl storyLog isLoading isImageLoading error gameStarted
     apiKeyMissing negb andb orb render offered isGameOver hasSceneText
     choicesList replay fold_left storyCalls imageCalls scenesShown flat_map
     suspensions isCall nonGameOver filter map pendingCalls promptsOf length
     errorAfter fallbackText noDataText restartDuring firstn skipn nth_error].

Ltac split_ext :=
  repeat (simp_ext;
          match goal with
          | |- context [match ?x with _ => _ end] =>
              atomic x; destruct x eqn:?
          end);
  simp_ext.

Ltac simp_page :=
  cbv beta iota zeta delta
    [dispatch invoke handler handleStartGame handleChoiceSelected
     handleRestartGame when tryCatchFinally bind emit awaitStory
     awaitImage ret answer session trace outcome applyEffect app gameState
     currentImageUrl storyLog isLoading isImageLoading error gameStarted
     apiKeyMissing negb andb orb render offered isGameOver hasSceneText
     choicesList replay fold_left isCall act settle untilCall park cells
     inFlight nth_error firstn skipn segmentsOk endsLoadingDown lowersLoading
     flightOk asyncOk calm forallb].

Ltac split_page :=
  repeat (simp_page;
          match goal with
          | |- context [match ?x with _ => _ end] =>
              atomic x; destruct x eqn:?
          end);
  simp_page.

(** ** General facts about the handlers *)

(** No error leaves a handler: whatever the services do, the promise a
    handler returns resolves. *)
Lemma invoke_outcome svc s a : outcome (invoke svc s a) = Resolved tt.
Proof. destruct s, a; split_cases; reflexivity. Qed.

(** The final cells are the initial ones with the trace's setters applied. *)
Lemma invoke_replay svc s a :
  session (invoke svc s a) = replay s (trace (invoke svc s a)).
Proof. destruct s, a; split_cases; reflexivity. Qed.

Lemma dispatch_unoffered svc s a :
  offered (render s) a = false -> dispatch svc s a = mkRun s [] (Resolved tt).
Proof. unfold dispatch; intros ->; reflexivity. Qed.

Lemma dispatch_offered svc s a :
  offered (render s) a = true -> dispatch svc s a = invoke svc s a.
Proof. unfold dispatch; intros ->; reflexivity. Qed.

Lemma dispatch_replay svc s a :
  session (dispatch svc s a) = replay s (trace (dispatch svc s a)).
Proof.
  unfold dispatch; destruct (offered (render s) a);
    [apply invoke_replay | reflexivity].
Qed.

(** While a handler is suspended on a story or image call, the text-loading
    flag is up. *)
Lemma suspended_is_loading svc s a :
  Forall (fun p => isLoading p = true) (suspensions s (trace (invoke svc s a))).
Proof. destruct s, a; split_cases; repeat constructor. Qed.

(** The view carries the choices list only when the text-loading flag is
    down. *)
Lemma choices_hidden_while_loading s c :
  isLoading s = true -> offered (render s) (ChooseOption c) = false.
Proof. destruct s; simpl; intros ->; split_cases; reflexivity. Qed.



(** ** The scenarios of the specification *)

(** Theme "haunted library": the page shows the scene text, fetches the image
    for the scene's prompt and offers the two choices. *)
Example scenario_haunted_library :
  imageCalls (trace (dispatch libraryProvider (mount (Some "key"))
                       (StartGame "haunted library")))
  = ["a haunted library exterior"] /\
  render libraryShown =
    AdventureScreen "" false
      (Some (mkSceneBlock
               (mkImageDisplay (Some "library.png") "a haunted library exterior" false)
               "You stand before a library..." false
               (Some (mkChoicesList ["Enter"; "Walk away"] false)))).
Proof. split; reflexivity. Qed.

(** Choice "Enter" answered by a game-over: the request carries the scene,
    the choice and the log, and the page becomes the game-over screen. *)
Example scenario_enter_and_vanish :
  storyCalls (trace (dispatch vanishProvider libraryShown (ChooseOption "Enter")))
  = [GetNextScene "You stand before a library..." "Enter"
       ["You stand before a library..."]] /\
  render (session (dispatch vanishProvider libraryShown (ChooseOption "Enter")))
  = GameOverScreen (Some "You vanish into the stacks forever.").
Proof. split; reflexivity. Qed.

(** ** Restart *)

(** C3: from every session state, restart leaves gameState = null, image =
    null, story log = [], error = null, both loading flags false and
    gameStarted = false, that is, the initial cells (with the credential flag
    as it was); restarting twice gives the same state as restarting once. *)
Theorem restart_resets_session (svc svc' : Services) (s : Session) :
  gameState (session (invoke svc s RestartGame)) = None /\
  currentImageUrl (session (invoke svc s RestartGame)) = None /\
  storyLog (session (invoke svc s RestartGame)) = [] /\
  error (session (invoke svc s RestartGame)) = None /\
  isLoading (session (invoke svc s RestartGame)) = false /\
  isImageLoading (session (invoke svc s RestartGame)) = false /\
  gameStarted (session (invoke svc s RestartGame)) = false /\
  session (invoke svc s RestartGame) =
    applyEffect (SetApiKeyMissing (apiKeyMissing s)) initialSession /\
  session (invoke svc' (session (invoke svc s RestartGame)) RestartGame) =
    session (invoke svc s RestartGame).
Proof. destruct s; cbv; repeat split. Qed.

(** C10: restart does not touch the credential flag: it writes the seven
    other cells only, and with the key missing the page is still the critical
    error screen afterwards. *)
Theorem restart_keeps_credential_flag (svc : Services) (s : Session) :
  apiKeyMissing (session (invoke svc s RestartGame)) = apiKeyMissing s /\
  trace (invoke svc s RestartGame) =
    [SetGameStarted false; SetGameState None; SetCurrentImageUrl None;
     SetStoryLog []; SetError None; SetIsLoading false;
     SetIsImageLoading false] /\
  render (session (invoke svc s RestartGame)) =
    (if apiKeyMissing s then CriticalErrorScreen criticalMessage
     else GameStartScreen false).
Proof. destruct s as [? ? ? ? ? ? ? akm]; destruct akm; cbv; repeat split. Qed.

(** ** The loading flag gates the choices *)



(** The flag is up for as long as a request is pending: in every state shown
    while a handler waits for the story or the image, a choice is not
    accepted. *)
Lemma choice_not_accepted_while_pending svc s a svc' c :
  Forall (fun p => dispatch svc' p (ChooseOption c) = mkRun p [] (Resolved tt))
    (suspensions s (trace (invoke svc s a))).
Proof.
  eapply Forall_impl; [|apply suspended_is_loading].
  intros p Hp. cbv beta in Hp.
  apply dispatch_unoffered, choices_hidden_while_loading, Hp.
Qed.

(** The gate is the view, not the handler: [handleChoiceSelected] itself
    does not read the loading flag. *)
Remark handler_ignores_loading_flag svc g img log ild err st c :
  storyCalls (trace (invoke svc (mkSession (Some g) img log true ild err st false)
                       (ChooseOption c)))
  = [GetNextScene (sceneDescription g) c log].
Proof. split_cases; reflexivity. Qed.

(** ** Missing credentials *)

Lemma mount_keyless apiKey : truthyOpt apiKey = false -> keyless (mount apiKey).
Proof.
  destruct apiKey as [[|c k]|]; cbn; intros; try discriminate; split; reflexivity.
Qed.

Lemma keyless_invoke svc s a :
  keyless s ->
  keyless (session (invoke svc s a)) /\
  storyCalls (trace (invoke svc s a)) = [] /\
  imageCalls (trace (invoke svc s a)) = [].
Proof.
  intros [Hk Hs]. destruct s as [gs img log ld ild err st akm].
  cbn in Hk, Hs; subst. unfold keyless.
  destruct a; split_cases; repeat split.
Qed.

Lemma keyless_render s : keyless s -> render s = CriticalErrorScreen criticalMessage.
Proof. intros [Hk Hs]. unfold render. rewrite Hk, Hs. reflexivity. Qed.

Lemma keyless_playDirect steps : forall s,
  keyless s ->
  keyless (session (playDirect s steps)) /\
  storyCalls (trace (playDirect s steps)) = [] /\
  imageCalls (trace (playDirect s steps)) = [].
Proof.
  induction steps as [|[svc a] rest IH]; intros s Hs.
  - repeat split; apply Hs.
  - cbn [playDirect]. destruct (keyless_invoke svc a Hs) as (H1 & H2 & H3).
    destruct (invoke svc s a) as [s1 t1 o1]. cbn [session trace] in *.
    destruct (IH s1 H1) as (H4 & H5 & H6).
    destruct (playDirect s1 rest) as [s2 t2 o2]. cbn [session trace] in *.
    unfold storyCalls, imageCalls in *. rewrite !flat_map_app.
    rewrite H2, H3, H5, H6. repeat split; apply H4.
Qed.

Lemma keyless_play steps : forall s,
  keyless s -> play s steps = mkRun s [] (Resolved tt).
Proof.
  induction steps as [|[svc a] rest IH]; intros s Hs; [reflexivity|].
  cbn [play]. rewrite dispatch_unoffered.
  - rewrite (IH s Hs). reflexivity.
  - rewrite (keyless_render Hs). destruct a; reflexivity.
Qed.

(** C7: when the API key is absent at mount, the page is the critical error
    screen, which carries no control, after any sequence of user actions; and
    even calling the handlers directly, in any order, makes no story (or
    image) call and leaves the critical error screen in place. *)
Theorem no_story_call_without_credentials
    (apiKey : option string) (steps : list (Services * Action)) :
  truthyOpt apiKey = false ->
  render (mount apiKey) = CriticalErrorScreen criticalMessage /\
  (forall a, offered (render (mount apiKey)) a = false) /\
  play (mount apiKey) steps = mkRun (mount apiKey) [] (Resolved tt) /\
  storyCalls (trace (playDirect (mount apiKey) steps)) = [] /\
  imageCalls (trace (playDirect (mount apiKey) steps)) = [] /\
  render (session (playDirect (mount apiKey) steps)) = CriticalErrorScreen criticalMessage.
Proof.
  intros Hkey. pose proof (mount_keyless apiKey Hkey) as Hk.
  destruct (keyless_playDirect steps Hk) as (H1 & H2 & H3).
  repeat split; auto using keyless_render, keyless_play.
  intros a. rewrite (keyless_render Hk). destruct a; reflexivity.
Qed.

Lemma no_story_call_without_credentials_witness :
  truthyOpt None = false /\
  storyCalls (trace (playDirect (mount None)
                       [(libraryProvider, StartGame "haunted library");
                        (libraryProvider, ChooseOption "Enter");
                        (libraryProvider, RestartGame)])) = [] /\
  render (session (playDirect (mount None)
                     [(libraryProvider, StartGame "haunted library");
                      (libraryProvider, ChooseOption "Enter");
                      (libraryProvider, RestartGame)]))
  = CriticalErrorScreen criticalMessage.
Proof.
  destruct (@no_story_call_without_credentials None
              [(libraryProvider, StartGame "haunted library");
               (libraryProvider, ChooseOption "Enter");
               (libraryProvider, RestartGame)] eq_refl)
    as (_ & _ & _ & Hstory & _ & Hview).
  split; [reflexivity|]. split; [exact Hstory | exact Hview].
Defined.

(** ** Choosing an option *)

(** C8: choosing an option in the playing state clears the displayed image
    before the text request, and requests the next scene exactly once, with
    the current scene's description, the chosen option and the current story
    log. *)
Theorem choice_clears_image_then_requests_next_scene
    (svc : Services) (s : Session) (c : string) :
  apiKeyMissing s = false ->
  offered (render s) (ChooseOption c) = true ->
  exists g post,
    gameState s = Some g /\
    trace (dispatch svc s (ChooseOption c)) =
      ([SetIsLoading true; SetError None; SetCurrentImageUrl None;
        StoryCall (GetNextScene (sceneDescription g) c (storyLog s))
          (getNextScene svc (sceneDescription g) c (storyLog s))] ++ post)%list /\
    currentImageUrl
      (replay s [SetIsLoading true; SetError None; SetCurrentImageUrl None]) = None /\
    storyCalls (trace (dispatch svc s (ChooseOption c))) =
      [GetNextScene (sceneDescription g) c (storyLog s)].
Proof.
  destruct s as [gs img log ld ild err st akm]. cbn [apiKeyMissing]. intros ->.
  split_cases; intros Hoff; try discriminate Hoff.
  all: eexists; eexists; split; [reflexivity|].
  all: split; [cbn [app]; try reflexivity | split; reflexivity].
  all: match goal with
       | H : getNextScene _ _ _ _ = _ |- _ => rewrite H; reflexivity
       end.
Qed.

Lemma choice_clears_image_then_requests_next_scene_witness :
  apiKeyMissing libraryShown = false /\
  offered (render libraryShown) (ChooseOption "Enter") = true /\
  exists g post,
    gameState libraryShown = Some g /\
    trace (dispatch vanishProvider libraryShown (ChooseOption "Enter")) =
      ([SetIsLoading true; SetError None; SetCurrentImageUrl None;
        StoryCall (GetNextScene (sceneDescription g) "Enter" (storyLog libraryShown))
          (getNextScene vanishProvider (sceneDescription g) "Enter"
             (storyLog libraryShown))] ++ post)%list /\
    currentImageUrl
      (replay libraryShown
         [SetIsLoading true; SetError None; SetCurrentImageUrl None]) = None /\
    storyCalls (trace (dispatch vanishProvider libraryShown (ChooseOption "Enter"))) =
      [GetNextScene (sceneDescription g) "Enter" (storyLog libraryShown)].
Proof.
  split; [reflexivity|]. split; [reflexivity|].
  exact (@choice_clears_image_then_requests_next_scene vanishProvider
           libraryShown "Enter" eq_refl eq_refl).
Defined.

(** ** Game over *)



(** ** Image failures *)



(** C9: when the story response carries a scene with a non-empty imagePrompt
    and generateImage rejects, the handler ends (its promise resolves) with
    isImageLoading still true: it was set just before the image request, and
    after the rejection only the catch block (console.error, setError) and
    the finally block (setIsLoading(false)) run; nothing sets it back. *)
Theorem image_failure_leaves_image_loading
    (svc : Services) (s : Session) (a : Action) (req : StoryRequest)
    (d : GameStateFromAI) (e : Thrown) :
  In (StoryCall req (Resolved (Some d))) (trace (invoke svc s a)) ->
  truthy (imagePrompt d) = true ->
  generateImage svc (imagePrompt d) = Rejected e ->
  outcome (invoke svc s a) = Resolved tt /\
  isImageLoading (session (invoke svc s a)) = true /\
  exists pre,
    ~ In (SetIsImageLoading false) pre /\
    trace (invoke svc s a) =
      (pre ++ [SetIsImageLoading true;
               ImageCall (imagePrompt d) (Rejected e);
               ConsoleError e;
               SetError (error (session (invoke svc s a)));
               SetIsLoading false])%list /\
    error (session (invoke svc s a)) <> None.
Proof.
  destruct s as [gs img log ld ild err st akm], a; split_cases;
    intros H1 H2 H3; in_trace H1.
  all: try congruence.
  all: split; [reflexivity|]; split; [reflexivity|].
  all: give_prefix 5.
  all: split; [intros H; in_trace H|].
  all: split; [ | discriminate].
  all: cbn [app]; congruence.
Qed.

Lemma image_failure_leaves_image_loading_witness :
  In (StoryCall (GetNextScene "You stand before a library..." "Enter"
                   ["You stand before a library..."])
        (Resolved (Some hallScene)))
     (trace (invoke imageDown libraryShown (ChooseOption "Enter"))) /\
  truthy (imagePrompt hallScene) = true /\
  generateImage imageDown (imagePrompt hallScene)
  = Rejected (ErrorObject "image quota exceeded") /\
  isImageLoading libraryShown = false /\
  isImageLoading (session (invoke imageDown libraryShown (ChooseOption "Enter"))) = true.
Proof.
  assert (Hstory :
    In (StoryCall (GetNextScene "You stand before a library..." "Enter"
                     ["You stand before a library..."])
          (Resolved (Some hallScene)))
       (trace (invoke imageDown libraryShown (ChooseOption "Enter"))))
    by find_in.
  destruct (@image_failure_leaves_image_loading imageDown libraryShown
              (ChooseOption "Enter") _ hallScene _ Hstory eq_refl eq_refl)
    as (_ & Hflag & _).
  split; [exact Hstory|]. split; [reflexivity|]. split; [reflexivity|].
  split; [reflexivity | exact Hflag].
Defined.

(** ** Story failures *)





(** ** The story log *)









(** * Further properties of the handlers and of the view *)

(** ** Errors and the loading flag *)

(** X1: no error leaves a handler: whatever the services answer, the promise
    of every handler resolves, also through the page; and a handler that did
    anything ends with the text-loading flag down (the finally block always
    runs). *)
Theorem handlers_never_throw_and_end_loading (svc : Services) (s : Session) (a : Action) :
  outcome (invoke svc s a) = Resolved tt /\
  outcome (dispatch svc s a) = Resolved tt /\
  (invoke svc s a = mkRun s [] (Resolved tt) \/
   isLoading (session (invoke svc s a)) = false).
Proof.
  assert (H : outcome (invoke svc s a) = Resolved tt /\
              (invoke svc s a = mkRun s [] (Resolved tt) \/
               isLoading (session (invoke svc s a)) = false)).
  { destruct s, a; split_ext; split; auto. }
  destruct H as [H1 H2]. split; [exact H1|]. split; [|exact H2].
  unfold dispatch. destruct (offered (render s) a); [exact H1 | reflexivity].
Qed.

(** X2: every handler either does nothing at all (its guard returned: the
    key is missing, or there is no game state to choose from) or, for start
    and choice, makes exactly one story request with the key present. *)
Theorem guarded_or_one_story_request (svc : Services) (s : Session) (a : Action) :
  a <> RestartGame ->
  (invoke svc s a = mkRun s [] (Resolved tt) /\
   (apiKeyMissing s = true \/ gameState s = None)) \/
  (exists req, storyCalls (trace (invoke svc s a)) = [req] /\
               apiKeyMissing s = false).
Proof.
  intros Ha. destruct s, a; try congruence; split_ext; eauto.
Qed.

Lemma guarded_or_one_story_request_witness :
  StartGame "" <> RestartGame /\
  exists req,
    storyCalls (trace (invoke libraryProvider initialSession (StartGame ""))) = [req].
Proof.
  assert (Ha : StartGame "" <> RestartGame) by discriminate.
  split; [exact Ha|].
  destruct (@guarded_or_one_story_request libraryProvider initialSession
              (StartGame "") Ha) as [[_ [H | H]] | (req & Hreq & _)].
  - discriminate H.
  - exists (GetInitialScene ""). reflexivity.
  - exists req. exact Hreq.
Defined.

(** X3: call discipline of one handler run: at most one story request, at
    most one scene put on display and only after a story request, and the
    image requests are exactly the non-empty image prompts of the scenes put
    on display (so: none for a scene whose imagePrompt is empty, one for a
    game-over scene that has a prompt). *)
Theorem image_requested_for_each_prompted_scene (svc : Services) (s : Session) (a : Action) :
  length (storyCalls (trace (invoke svc s a))) <= 1 /\
  length (scenesShown (trace (invoke svc s a)))
    <= length (storyCalls (trace (invoke svc s a))) /\
  imageCalls (trace (invoke svc s a)) = promptsOf (scenesShown (trace (invoke svc s a))).
Proof.
  destruct s, a; split_ext; repeat split; auto; try congruence.
Qed.

(** ** What is on the page while a call is pending *)


(** ** Starting a game *)

(** X5: with the key present, startGame clears the loading state of the
    previous request (error, story log, image) and then asks the provider for
    the opening scene exactly once, with the theme as it was given: the
    handler does not validate the theme, an empty theme is sent as it is. *)
Theorem start_requests_opening_scene (svc : Services) (s : Session) (theme : string) :
  apiKeyMissing s = false ->
  exists post,
    trace (invoke svc s (StartGame theme)) =
      ([SetIsLoading true; SetError None; SetStoryLog []; SetCurrentImageUrl None;
        StoryCall (GetInitialScene theme) (getInitialScene svc theme)] ++ post)%list /\
    storyCalls (trace (invoke svc s (StartGame theme))) = [GetInitialScene theme].
Proof.
  destruct s as [gs img log ld ild err st akm]. cbn [apiKeyMissing]. intros ->.
  split_ext; eexists; (split; [|reflexivity]); cbn [app]; reflexivity.
Qed.

Lemma start_requests_opening_scene_witness :
  apiKeyMissing initialSession = false /\
  storyCalls (trace (invoke libraryProvider initialSession (StartGame "")))
  = [GetInitialScene ""].
Proof.
  split; [reflexivity|].
  destruct (@start_requests_opening_scene libraryProvider initialSession ""
              eq_refl) as (post & _ & Hcalls).
  exact Hcalls.
Defined.

(** X6: a successful start determines the whole session, whatever it was
    before: the opening scene is the game state, the story log is exactly
    its description, the game is started, the image is the one generated for
    the scene's prompt (none, and no image request, when the prompt is
    empty), the error is null and the text-loading flag is down. *)
Theorem successful_start_determines_session
    (svc : Services) (s : Session) (theme : string) (d : GameStateFromAI)
    (url : option string) :
  apiKeyMissing s = false ->
  getInitialScene svc theme = Resolved (Some d) ->
  generateImage svc (imagePrompt d) = Resolved url ->
  session (invoke svc s (StartGame theme)) =
    mkSession (Some d)
      (if truthy (imagePrompt d) then url else None)
      [sceneDescription d] false
      (if truthy (imagePrompt d) then false else isImageLoading s)
      None true false /\
  imageCalls (trace (invoke svc s (StartGame theme))) =
    (if truthy (imagePrompt d) then [imagePrompt d] else []).
Proof.
  destruct s as [gs img log ld ild err st akm]. cbn [apiKeyMissing isImageLoading].
  intros -> H1 H2. revert H1 H2.
  split_ext; intros H1 H2; split; congruence.
Qed.

Lemma successful_start_determines_session_witness :
  apiKeyMissing libraryShown = false /\
  getInitialScene vanishProvider "deep stacks" = Resolved (Some vanishScene) /\
  generateImage vanishProvider (imagePrompt vanishScene) = Resolved (Some "stacks.png") /\
  session (invoke vanishProvider libraryShown (StartGame "deep stacks")) =
    mkSession (Some vanishScene) (Some "stacks.png")
      ["The shelves close around you."] false false None true false.
Proof.
  destruct (@successful_start_determines_session vanishProvider libraryShown
              "deep stacks" vanishScene (Some "stacks.png") eq_refl eq_refl eq_refl)
    as [Hsession _].
  split; [reflexivity|]. split; [reflexivity|]. split; [reflexivity|].
  exact Hsession.
Defined.

(** ** A successful choice *)

(** X7: a successful choice replaces the game state by the next scene,
    appends the scene's description to the story log unless the scene is a
    game-over (then the log is untouched), replaces the image by the one
    generated for the scene's prompt (null when the prompt is empty), clears
    the error and leaves gameStarted as it was. *)
Theorem successful_choice_updates_session
    (svc : Services) (s : Session) (c : string) (g d : GameStateFromAI)
    (url : option string) :
  gameState s = Some g ->
  apiKeyMissing s = false ->
  getNextScene svc (sceneDescription g) c (storyLog s) = Resolved (Some d) ->
  generateImage svc (imagePrompt d) = Resolved url ->
  session (invoke svc s (ChooseOption c)) =
    mkSession (Some d)
      (if truthy (imagePrompt d) then url else None)
      (if gameOver d then storyLog s else storyLog s ++ [sceneDescription d])
      false
      (if truthy (imagePrompt d) then false else isImageLoading s)
      None (gameStarted s) false.
Proof.
  destruct s as [gs img log ld ild err st akm].
  cbn [gameState apiKeyMissing isImageLoading storyLog gameStarted].
  intros -> -> H1 H2. revert H1 H2.
  split_ext; intros H1 H2; congruence.
Qed.

Lemma successful_choice_updates_session_witness :
  gameState libraryShown = Some libraryScene /\
  apiKeyMissing libraryShown = false /\
  getNextScene libraryProvider (sceneDescription libraryScene) "Enter"
    (storyLog libraryShown) = Resolved (Some hallScene) /\
  generateImage libraryProvider (imagePrompt hallScene) = Resolved (Some "library.png") /\
  session (invoke libraryProvider libraryShown (ChooseOption "Enter")) =
    mkSession (Some hallScene) (Some "library.png")
      ["You stand before a library..."; "A candle-lit hall of shelves."]
      false false None true false.
Proof.
  pose proof (@successful_choice_updates_session libraryProvider libraryShown
                "Enter" libraryScene hallScene (Some "library.png")
                eq_refl eq_refl eq_refl eq_refl) as Hsession.
  split; [reflexivity|]. split; [reflexivity|]. split; [reflexivity|].
  split; [reflexivity|]. exact Hsession.
Defined.

(** ** The cells a handler leaves *)

(** X8: no handler writes the credential flag: through any sequence of
    direct handler calls it stays what the mount effect made it, and no
    setApiKeyMissing appears in the trace. *)
Theorem credential_flag_never_written (steps : list (Services * Action)) :
  forall s,
    apiKeyMissing (session (playDirect s steps)) = apiKeyMissing s /\
    forall v, ~ In (SetApiKeyMissing v) (trace (playDirect s steps)).
Proof.
  induction steps as [|[svc a] rest IH]; intros s.
  - split; [reflexivity | intros v []].
  - assert (Hstep : apiKeyMissing (session (invoke svc s a)) = apiKeyMissing s /\
                    forall v, ~ In (SetApiKeyMissing v) (trace (invoke svc s a))).
    { destruct s, a; split_ext; (split; [reflexivity|]); intros v H; in_trace H. }
    cbn [playDirect]. destruct (invoke svc s a) as [s1 t1 o1].
    cbn [session trace] in Hstep. destruct Hstep as [Hflag Htrace].
    destruct (IH s1) as [Hflag' Htrace'].
    destruct (playDirect s1 rest) as [s2 t2 o2]. cbn [session trace] in *.
    split; [congruence|]. intros v H. apply in_app_or in H.
    destruct H as [H | H]; [exact (Htrace v H) | exact (Htrace' v H)].
Qed.

(** X9: the error cell after a request is decided by what the two calls
    answered: the Error's own message (a fixed text for a thrown value that
    is not an Error) when the story call or the image call rejects, a fixed
    "no data" text when the story call resolves without data, and null when
    the story call brought a scene and the image, if one was requested, came
    back; an error left by an earlier request never survives. *)
Theorem error_cell_after_request
    (svc : Services) (s : Session) (a : Action) (req : StoryRequest)
    (res : Outcome (option GameStateFromAI)) :
  In (StoryCall req res) (trace (invoke svc s a)) ->
  error (session (invoke svc s a)) = errorAfter svc a res.
Proof.
  destruct s as [gs img log ld ild err st akm], a.
  all: cbv beta iota zeta delta
         [invoke handler handleStartGame handleChoiceSelected handleRestartGame
          when tryCatchFinally bind emit awaitStory awaitImage ret answer
          session trace outcome applyEffect app gameState currentImageUrl
          storyLog isLoading isImageLoading error gameStarted apiKeyMissing negb].
  all: repeat match goal with
         | |- context [match ?x with _ => _ end] => atomic x; destruct x eqn:?
         end.
  all: intros H; in_trace H.
  all: cbv beta iota delta [errorAfter fallbackText noDataText].
  all: repeat match goal with
         | H : ?x = _ |- context [?x] => rewrite H
         end.
  all: reflexivity.
Qed.

Lemma error_cell_after_request_witness :
  In (StoryCall (GetInitialScene "haunted library") (Rejected OtherValue))
     (trace (invoke (scripted (Rejected OtherValue) (Resolved None) (Resolved None))
               initialSession (StartGame "haunted library"))) /\
  error (session (invoke (scripted (Rejected OtherValue) (Resolved None) (Resolved None))
                    initialSession (StartGame "haunted library")))
  = Some "An unknown error occurred while starting the game.".
Proof.
  assert (Hcall :
    In (StoryCall (GetInitialScene "haunted library") (Rejected OtherValue))
       (trace (invoke (scripted (Rejected OtherValue) (Resolved None) (Resolved None))
                 initialSession (StartGame "haunted library"))))
    by find_in.
  split; [exact Hcall|].
  exact (@error_cell_after_request _ initialSession (StartGame "haunted library")
           _ _ Hcall).
Defined.

(** X10: the image-loading flag after a handler.  Restart lowers it.  A
    start or a choice that requests no image leaves it as it was; one that
    requests an image lowers it when the image call resolves and leaves it
    up when the call rejects.  So after a failed image fetch the flag stays
    up through later scenes without a prompt, until an image fetch succeeds
    or the game is restarted. *)
Theorem image_loading_flag_after_handler (svc : Services) (s : Session) (a : Action) :
  isImageLoading (session (invoke svc s a)) =
    match a with
    | RestartGame => false
    | _ =>
        match imageCalls (trace (invoke svc s a)) with
        | [] => isImageLoading s
        | prompt :: _ =>
            match generateImage svc prompt with
            | Resolved _ => false
            | Rejected _ => true
            end
        end
    end.
Proof.
  destruct s as [gs img log ld ild err st akm], a.
  all: cbv beta iota zeta delta
         [invoke handler handleStartGame handleChoiceSelected handleRestartGame
          when tryCatchFinally bind emit awaitStory awaitImage ret answer
          session trace outcome applyEffect app gameState currentImageUrl
          storyLog isLoading isImageLoading error gameStarted apiKeyMissing negb].
  all: repeat match goal with
         | |- context [match ?x with _ => _ end] => atomic x; destruct x eqn:?
         end.
  all: cbv beta iota zeta delta [imageCalls flat_map app].
  all: repeat match goal with
         | H : ?x = _ |- context [?x] => rewrite H
         end.
  all: reflexivity.
Qed.

(** ** The page under every interleaving *)

(** The effects of a handler depend on its closure and on the services, not
    on the cells it runs against, and the cells it leaves are the ones it
    found with its effects applied.  This is what lets a suspended handler be
    kept as its remaining effects. *)
Lemma handler_effects_from_closure svc closure a s :
  handler closure a svc s =
    mkRun (replay s (trace (handler closure a svc closure)))
      (trace (handler closure a svc closure)) (Resolved tt).
Proof. destruct closure, s, a; split_ext; reflexivity. Qed.

(** An action taken to its end while nothing else happens is [dispatch]. *)
Lemma uninterrupted_action_is_dispatch svc a s :
  settle 0 (settle 0 (act svc a (mkPage s []))) =
    mkPage (session (dispatch svc s a)) [].
Proof. destruct s, a; split_page; reflexivity. Qed.

Lemma replay_cons s e tr : replay s (e :: tr) = replay (applyEffect e s) tr.
Proof. reflexivity. Qed.

Lemma async_trace_ok svc s a :
  a <> RestartGame ->
  asyncOk (trace (invoke svc s a)) = true /\
  (apiKeyMissing s = true -> trace (invoke svc s a) = []).
Proof.
  intros Ha. destruct s, a; try congruence; split_page; split; intros;
    first [reflexivity | discriminate].
Qed.

Lemma calm_replay now : forall s,
  forallb calm now = true ->
  gameState (replay s now) = gameState s /\
  gameStarted (replay s now) = gameStarted s /\
  apiKeyMissing (replay s now) = apiKeyMissing s.
Proof.
  induction now as [|e now IH]; intros s H; [repeat split|].
  cbn [forallb] in H. apply andb_prop in H. destruct H as [He Hnow].
  rewrite replay_cons. destruct (IH (applyEffect e s) Hnow) as (-> & -> & ->).
  destruct e; try discriminate He; repeat split.
Qed.

Lemma untilCall_later tr : forall now call rest,
  untilCall tr = (now, call :: rest) -> isCall call = true.
Proof.
  induction tr as [|e tr IH]; intros now call rest H; cbn [untilCall] in H.
  - discriminate H.
  - destruct (isCall e) eqn:He.
    + injection H as _ <- _. exact He.
    + destruct (untilCall tr) as [now' later']. injection H as _ ->.
      exact (IH _ _ _ eq_refl).
Qed.

Lemma segment_replay tr : forall seen s now later,
  untilCall tr = (now, later) ->
  segmentsOk seen tr = true ->
  (seen = true -> gameState s <> None) ->
  (gameStarted s = true -> gameState s <> None) ->
  (gameStarted (replay s now) = true -> gameState (replay s now) <> None) /\
  apiKeyMissing (replay s now) = apiKeyMissing s /\
  match later with
  | [] => True
  | _ :: rest => segmentsOk false rest = true
  end.
Proof.
  induction tr as [|e tr IH]; intros seen s now later Hcut Hok Hseen Hs;
    cbn [untilCall] in Hcut.
  - injection Hcut as <- <-. repeat split. exact Hs.
  - destruct (isCall e) eqn:He.
    + injection Hcut as <- <-. split; [exact Hs|]. split; [reflexivity|].
      destruct e; try discriminate He; exact Hok.
    + destruct (untilCall tr) as [now' later'] eqn:Hcut'.
      injection Hcut as <- <-. rewrite replay_cons.
      destruct e as [[d|]| | | | | | |[|]| | | |]; cbn [segmentsOk] in Hok;
        try discriminate Hok; try discriminate He.
      all: try (apply andb_prop in Hok; destruct Hok as [Hseen' Hok]).
      all: match goal with
           | |- context [replay (applyEffect ?e ?s0) _] =>
               destruct (IH _ (applyEffect e s0) _ _ eq_refl Hok) as (H1 & H2 & H3)
           end;
        [ destruct s; cbn; intros; first [discriminate | auto]
        | destruct s; cbn; intros; first [discriminate | auto]
        | split; [exact H1|]; split; [rewrite H2; destruct s; reflexivity | exact H3] ].
Qed.

Lemma ends_down_replay tr : forall s now later,
  untilCall tr = (now, later) ->
  endsLoadingDown tr = true ->
  match later with
  | [] => isLoading (replay s now) = false
  | _ :: rest => endsLoadingDown rest = true
  end.
Proof.
  induction tr as [|e tr IH]; intros s now later Hcut Hends;
    cbn [untilCall] in Hcut.
  - discriminate Hends.
  - cbn [endsLoadingDown] in Hends. destruct (isCall e) eqn:He.
    + injection Hcut as <- <-. destruct tr as [|e' tr'].
      * destruct e; discriminate.
      * exact Hends.
    + destruct (untilCall tr) as [now' later'] eqn:Hcut'.
      injection Hcut as <- <-. rewrite replay_cons. destruct tr as [|e' tr'].
      * cbn [untilCall] in Hcut'. injection Hcut' as <- <-.
        destruct e as [| | | |[|]| | | | | | |]; try discriminate Hends.
        destruct s; reflexivity.
      * exact (IH _ _ _ eq_refl Hends).
Qed.

Lemma act_ok svc a p : pageOk p -> pageOk (act svc a p).
Proof.
  intros (Hstate & Hkey & Hflights & Hidle). unfold act.
  destruct (offered (render (cells p)) a) eqn:Hoff;
    [ | exact (conj Hstate (conj Hkey (conj Hflights Hidle)))].
  destruct p as [s pool]. cbn [cells inFlight] in *.
  destruct a as [theme | choice | ].
  3: { destruct s as [gs img log ld ild err st akm]. cbn in Hkey.
       destruct akm.
       - destruct (Hkey eq_refl) as [-> ->]. discriminate Hoff.
       - split; [cbn; discriminate|]. split; [cbn; discriminate|].
         split; [exact Hflights | reflexivity]. }
  all: match goal with
       | |- context [invoke ?v ?s0 ?act] =>
           destruct (@async_trace_ok v s0 act ltac:(discriminate)) as [Hok Hnone]
       end.
  all: destruct (trace (invoke svc s _)) as [|e tr] eqn:Htrace;
    [ exact (conj Hstate (conj Hkey (conj Hflights Hidle))) | ].
  all: unfold asyncOk in Hok; destruct (untilCall (e :: tr)) as [now later];
    apply andb_prop in Hok; destruct Hok as [Hcalm Hflight].
  all: destruct (calm_replay now s Hcalm) as (Hgs & Hst & Hakm).
  all: destruct later as [|call rest]; [discriminate Hflight|].
  all: unfold pageOk; cbn [cells inFlight park].
  all: rewrite Hgs, Hst, Hakm.
  all: split; [exact Hstate|].
  all: split; [intros Hmissing; specialize (Hnone Hmissing); discriminate Hnone|].
  all: split; [constructor; assumption | discriminate].
Qed.

Lemma settle_ok i p : pageOk p -> pageOk (settle i p).
Proof.
  intros (Hstate & Hkey & Hflights & Hidle). unfold settle.
  destruct (nth_error (inFlight p) i) as [[|call rest]|] eqn:Hnth;
    try exact (conj Hstate (conj Hkey (conj Hflights Hidle))).
  assert (Hfl : flightOk (call :: rest) = true).
  { rewrite Forall_forall in Hflights. apply Hflights.
    eapply nth_error_In, Hnth. }
  cbn [flightOk] in Hfl. apply andb_prop in Hfl. destruct Hfl as [Hfl Hends].
  apply andb_prop in Hfl. destruct Hfl as [_ Hsegs].
  destruct (untilCall rest) as [now later] eqn:Hcut.
  destruct (@segment_replay rest false (cells p) now later Hcut Hsegs
              ltac:(discriminate) Hstate) as (Hstate' & Hakm & Hlater).
  pose proof (@ends_down_replay rest (cells p) now later Hcut Hends) as Hdown.
  unfold pageOk. cbn [cells inFlight]. rewrite Hakm.
  split; [exact Hstate'|].
  split.
  { intros Hmissing. destruct (Hkey Hmissing) as [_ Hempty].
    rewrite Hempty in Hnth. destruct i; discriminate Hnth. }
  assert (Hfirst : Forall (fun fl => flightOk fl = true) (firstn i (inFlight p))).
  { rewrite Forall_forall in *. intros fl Hin. apply Hflights.
    rewrite <- (firstn_skipn i (inFlight p)). apply in_or_app. left. exact Hin. }
  assert (Hlast : Forall (fun fl => flightOk fl = true) (skipn (S i) (inFlight p))).
  { rewrite Forall_forall in *. intros fl Hin. apply Hflights.
    rewrite <- (firstn_skipn (S i) (inFlight p)). apply in_or_app. right. exact Hin. }
  destruct later as [|call' rest'].
  - cbn [park]. split; [apply Forall_app; split; assumption|].
    intros _. exact Hdown.
  - cbn [park]. split.
    + apply Forall_app. split; [exact Hfirst|]. constructor; [|exact Hlast].
      cbn [flightOk]. rewrite (untilCall_later _ Hcut), Hlater, Hdown. reflexivity.
    + intros Hempty. apply app_eq_nil in Hempty. destruct Hempty as [_ Hempty].
      discriminate Hempty.
Qed.

Lemma reachable_ok p : reachable p -> pageOk p.
Proof.
  induction 1 as [apiKey | svc a p _ IH | i p _ IH].
  - destruct apiKey as [[|c k]|]; repeat split; cbn; try discriminate;
      constructor.
  - apply act_ok, IH.
  - apply settle_ok, IH.
Qed.

Lemma lateImagePage_reachable : reachable lateImagePage.
Proof.
  unfold lateImagePage.
  apply reachable_settle, reachable_act, reachable_settle, reachable_act.
  change (mkPage libraryShown [])
    with (settle 0 (settle 0 (act libraryProvider (StartGame "haunted library")
                                (mkPage (mount (Some "key")) [])))).
  apply reachable_settle, reachable_settle, reachable_act, reachable_mount.
Qed.

(** X11: what holds of the page whatever the order of user actions and of
    settling calls (handlers are never cancelled, and several can be in
    flight).  A started game has a game state and the key present; with the
    key missing nothing is ever in flight and the game is never started;
    whenever no handler is in flight the text-loading flag is down; and every
    handler in flight is waiting on a call.  Nothing more holds of a session
    that is not started: it can hold an image (the late image of X14). *)
Theorem page_invariant_under_interleaving (p : Page) :
  reachable p ->
  (gameStarted (cells p) = true ->
   (exists g, gameState (cells p) = Some g) /\ apiKeyMissing (cells p) = false) /\
  (apiKeyMissing (cells p) = true ->
   inFlight p = [] /\ gameStarted (cells p) = false) /\
  (inFlight p = [] -> isLoading (cells p) = false) /\
  Forall (fun fl => exists call rest, fl = call :: rest /\ isCall call = true)
    (inFlight p).
Proof.
  intros Hp. destruct (reachable_ok Hp) as (Hstate & Hkey & Hflights & Hidle).
  split.
  { intros Hst. split.
    - destruct (gameState (cells p)) as [g|] eqn:Hg; [eauto|].
      exfalso. exact (Hstate Hst eq_refl).
    - destruct (apiKeyMissing (cells p)) eqn:Hakm; [|reflexivity].
      destruct (Hkey eq_refl) as [Hno _]. congruence. }
  split; [intros Hmissing; destruct (Hkey Hmissing); split; assumption|].
  split; [exact Hidle|].
  eapply Forall_impl; [|exact Hflights].
  intros [|call rest] Hfl; [discriminate Hfl|].
  exists call, rest. split; [reflexivity|].
  cbn [flightOk] in Hfl. destruct (isCall call); [reflexivity | discriminate Hfl].
Qed.

Lemma page_invariant_under_interleaving_witness :
  reachable lateImagePage /\
  inFlight lateImagePage = [] /\
  gameStarted (cells lateImagePage) = false /\
  currentImageUrl (cells lateImagePage) = Some "stacks.png" /\
  isLoading (cells lateImagePage) = false.
Proof.
  destruct (@page_invariant_under_interleaving lateImagePage lateImagePage_reachable)
    as (_ & _ & Hidle & _).
  split; [exact lateImagePage_reachable|]. split; [reflexivity|].
  split; [reflexivity|]. split; [reflexivity|]. exact (Hidle eq_refl).
Defined.

(** ** The controls on the page *)



(** ** Restart and what follows *)

(** X13: wherever the page offers restart with the key present, also while
    a handler is still in flight, the restart handler leaves exactly the
    session of a fresh mount with a key, and the page is the start screen.
    (A handler in flight is not cancelled by it and may still write
    afterwards: X14.) *)
Theorem restart_is_fresh_mount (svc : Services) (s : Session) (apiKey : option string) :
  apiKeyMissing s = false ->
  offered (render s) RestartGame = true ->
  truthyOpt apiKey = true ->
  session (dispatch svc s RestartGame) = mount apiKey /\
  render (session (dispatch svc s RestartGame)) = GameStartScreen false.
Proof.
  intros Hkey Hoff Htruthy. rewrite (dispatch_offered svc _ _ Hoff).
  destruct s as [gs img log ld ild err st akm]. cbn [apiKeyMissing] in Hkey.
  subst akm. destruct apiKey as [[|c k]|]; try discriminate Htruthy.
  split; reflexivity.
Qed.

Lemma restart_is_fresh_mount_witness :
  apiKeyMissing
    (replay libraryShown
       (firstn 6 (trace (dispatch vanishProvider libraryShown (ChooseOption "Enter")))))
  = false /\
  isLoading
    (replay libraryShown
       (firstn 6 (trace (dispatch vanishProvider libraryShown (ChooseOption "Enter")))))
  = true /\
  offered
    (render
       (replay libraryShown
          (firstn 6 (trace (dispatch vanishProvider libraryShown
                              (ChooseOption "Enter"))))))
    RestartGame = true /\
  truthyOpt (Some "key") = true /\
  session
    (dispatch libraryProvider
       (replay libraryShown
          (firstn 6 (trace (dispatch vanishProvider libraryShown
                              (ChooseOption "Enter")))))
       RestartGame)
  = mount (Some "key").
Proof.
  split; [reflexivity|]. split; [reflexivity|]. split; [reflexivity|].
  split; [reflexivity|].
  exact (proj1 (@restart_is_fresh_mount libraryProvider
                  (replay libraryShown
                     (firstn 6 (trace (dispatch vanishProvider libraryShown
                                         (ChooseOption "Enter")))))
                  (Some "key") eq_refl eq_refl eq_refl)).
Defined.

(** X14: a restart clicked while the game-over scene's image is still being
    fetched is not followed by a cancellation.  The restart control is on the
    page during that fetch; after the restart, the image call settles and the
    suspended handler still stores its result: the session is the initial one
    except that it holds the late image, with the game not started. *)
Theorem restart_during_final_image_fetch
    (svc : Services) (s : Session) (c : string) (g d : GameStateFromAI)
    (url : option string) :
  apiKeyMissing s = false ->
  gameState s = Some g ->
  offered (render s) (ChooseOption c) = true ->
  getNextScene svc (sceneDescription g) c (storyLog s) = Resolved (Some d) ->
  gameOver d = true ->
  truthy (imagePrompt d) = true ->
  generateImage svc (imagePrompt d) = Resolved url ->
  nth_error (trace (dispatch svc s (ChooseOption c))) 6
    = Some (ImageCall (imagePrompt d) (Resolved url)) /\
  offered (render (replay s (firstn 6 (trace (dispatch svc s (ChooseOption c))))))
    RestartGame = true /\
  restartDuring svc s (ChooseOption c) 6 =
    applyEffect (SetCurrentImageUrl url) initialSession /\
  render (restartDuring svc s (ChooseOption c) 6) = GameStartScreen false.
Proof.
  intros Hkey Hg Hoff H1 H2 H3 H4.
  destruct s as [gs img log ld ild err st akm].
  cbn in Hkey, Hg, H1. subst akm gs.
  assert (Hshape : st = true /\ ld = false).
  { destruct st, ld; revert Hoff; split_ext; intros Hoff;
      first [discriminate Hoff | split; reflexivity]. }
  destruct Hshape as [-> ->].
  assert (Htrace :
    trace (dispatch svc (mkSession (Some g) img log false ild err true false)
             (ChooseOption c)) =
      [SetIsLoading true; SetError None; SetCurrentImageUrl None;
       StoryCall (GetNextScene (sceneDescription g) c log) (Resolved (Some d));
       SetGameState (Some d); SetIsImageLoading true;
       ImageCall (imagePrompt d) (Resolved url);
       SetCurrentImageUrl url; SetIsImageLoading false; SetIsLoading false]).
  { rewrite (dispatch_offered svc _ _ Hoff).
    simp_ext. rewrite H1. simp_ext. rewrite H2. simp_ext. rewrite H3.
    simp_ext. rewrite H4. reflexivity. }
  unfold restartDuring. rewrite Htrace.
  split; [reflexivity|].
  simp_ext. rewrite H2. simp_ext. repeat split.
Qed.

Lemma restart_during_final_image_fetch_witness :
  apiKeyMissing libraryShown = false /\
  gameState libraryShown = Some libraryScene /\
  offered (render libraryShown) (ChooseOption "Enter") = true /\
  getNextScene vanishProvider (sceneDescription libraryScene) "Enter"
    (storyLog libraryShown) = Resolved (Some vanishScene) /\
  gameOver vanishScene = true /\
  truthy (imagePrompt vanishScene) = true /\
  generateImage vanishProvider (imagePrompt vanishScene) = Resolved (Some "stacks.png") /\
  restartDuring vanishProvider libraryShown (ChooseOption "Enter") 6 =
    applyEffect (SetCurrentImageUrl (Some "stacks.png")) initialSession.
Proof.
  destruct (@restart_during_final_image_fetch vanishProvider libraryShown "Enter"
              libraryScene vanishScene (Some "stacks.png") eq_refl
              eq_refl eq_refl eq_refl eq_refl eq_refl eq_refl)
    as (_ & _ & Hlate & _).
  repeat (split; [reflexivity|]). exact Hlate.
Defined.

(** ** What the page shows around a failure *)

(** X15: a failed start on an idle start screen leaves the page exactly as
    it was: the start screen, not loading.  The failure's message is stored in the error cell, but the
    start screen is given only the start handler and the loading flag, so the
    message is not part of what is rendered. *)
Theorem failed_start_shows_no_message
    (svc : Services) (s : Session) (theme : string) :
  isLoading s = false ->
  offered (render s) (StartGame theme) = true ->
  storyFailed (getInitialScene svc theme) = true ->
  render (session (dispatch svc s (StartGame theme))) = GameStartScreen false /\
  render (session (dispatch svc s (StartGame theme))) = render s /\
  error (session (dispatch svc s (StartGame theme))) <> None.
Proof.
  destruct s as [gs img log ld ild err st akm]. cbn [isLoading]. intros ->.
  split_ext; intros Hoff Hfail; try discriminate Hoff; try discriminate Hfail.
  all: repeat split; discriminate.
Qed.

Lemma failed_start_shows_no_message_witness :
  isLoading (mount (Some "key")) = false /\
  offered (render (mount (Some "key"))) (StartGame "haunted library") = true /\
  storyFailed (getInitialScene storyDown "haunted library") = true /\
  error (session (dispatch storyDown (mount (Some "key")) (StartGame "haunted library")))
  = Some "quota exceeded" /\
  render (session (dispatch storyDown (mount (Some "key")) (StartGame "haunted library")))
  = GameStartScreen false.
Proof.
  destruct (@failed_start_shows_no_message storyDown (mount (Some "key"))
              "haunted library" eq_refl eq_refl eq_refl)
    as (Hview & _ & _).
  repeat (split; [reflexivity|]). exact Hview.
Defined.





(** ** The credential gate *)

(** X18: the key check is the only gate on starting: at mount, a start makes
    the opening-scene request exactly when process.env.API_KEY is truthy; an
    empty string counts as missing, and with a key the mount effect changes
    nothing, so the page is the start screen. *)
Theorem start_allowed_iff_key_truthy
    (svc : Services) (apiKey : option string) (theme : string) :
  storyCalls (trace (dispatch svc (mount apiKey) (StartGame theme)))
  = (if truthyOpt apiKey then [GetInitialScene theme] else []) /\
  render (mount apiKey)
  = (if truthyOpt apiKey then GameStartScreen false
     else CriticalErrorScreen criticalMessage) /\
  (if truthyOpt apiKey then mount apiKey = initialSession
   else apiKeyMissing (mount apiKey) = true).
Proof.
  destruct apiKey as [[|ch k]|].
  - repeat split.
  - change (mount (Some (String ch k))) with initialSession.
    cbn [truthyOpt truthy]. split; [|split; reflexivity].
    unfold initialSession. split_ext; reflexivity.
  - repeat split.
Qed.

